(** * Lox tree-walking evaluator: the expression nodes of [lox/ast.py]
      and the node constructors of [lox/transformer.py].

    The interpreter runs on a Python host.  Host values are embedded as an
    inductive type, host exceptions as an error result, and the mutable
    context and the output channel as an explicit state threaded through
    evaluation.  Numbers are IEEE binary64 values (the host's [float]). *)

From Stdlib Require Import ZArith Bool Lia.
From Stdlib Require Import Floats.PrimFloat Floats.FloatOps Floats.SpecFloat.
From Stdlib Require Import Floats.FloatAxioms.
From stdpp Require Import base option list strings gmap pretty.

#[local] Set Warnings "-register-all".

Open Scope Z_scope.
Open Scope string_scope.

(** ** Host values *)

(** A host function object is referred to by name; what it computes is a
    parameter of the evaluator (see [Section Evaluator]). *)
Definition host_fn := string.

(** The [op] attribute of a [UnaryOp] node is a function object.  [_apply]
    tells three cases apart by object identity: [runtime.neg],
    [runtime.not_], and any other function. *)
Inductive unop : Type :=
| op_neg
| op_not
| op_other (f : host_fn).

(** The method table of one class of a method-resolution chain. *)
Definition class_dict : Type := string * list (string * host_fn).

(** [VBool], [VStr], [VFloat], [VNone] are the declared
    [Value = bool | str | float | None].  [VInt] is the host's [int], which
    [-True] produces.  The remaining constructors are the host objects that
    can reach the evaluator: functions registered in the context, the
    closure [wrapper] created by [UnaryOp.eval] (it captures the node's
    [op] and the operand's value), bound methods, and objects with a field
    mapping and the method-resolution chain of their class. *)
Inductive Value : Type :=
| VBool (b : bool)
| VStr (s : string)
| VFloat (x : float)
| VNone
| VInt (n : Z)
| VNative (f : host_fn)
| VWrapper (op : unop) (val : Value)
| VBound (f : host_fn) (self : Value)
| VInstance (mro : list class_dict) (fields : list (string * Value)).

(** Host exceptions raised or propagated by the evaluator. *)
Inductive PyExn : Type :=
| KeyError (key : string)
| NameError (name : string)
| TypeError
| AttributeError (attr : string)
| HostError (what : string).

Inductive Result (A : Type) : Type :=
| Ok (a : A)
| Raise (e : PyExn).
Arguments Ok {A} a.
Arguments Raise {A} e.

Definition rbind {A B} (r : Result A) (k : A -> Result B) : Result B :=
  match r with
  | Ok a => k a
  | Raise e => Raise e
  end.

(** The error kinds of the specification are kinds, not host types: a
    missing name surfaces as [KeyError] from the context and as [NameError]
    from [Var.eval]. *)
Inductive ErrorKind : Type :=
| UndefinedVariable
| TypeErrorKind
| AttributeErrorKind
| OtherError.

Definition error_kind (e : PyExn) : ErrorKind :=
  match e with
  | KeyError _ | NameError _ => UndefinedVariable
  | TypeError => TypeErrorKind
  | AttributeError _ => AttributeErrorKind
  | HostError _ => OtherError
  end.

(** ** Truthiness ([is_truthy]) *)

(** [False if val is False or val is None else True] *)
Definition is_truthy (val : Value) : bool :=
  match val with
  | VBool false => false
  | VNone => false
  | _ => true
  end.

(** [callable(val)] *)
Definition callable (val : Value) : bool :=
  match val with
  | VNative _ | VWrapper _ _ | VBound _ _ => true
  | _ => false
  end.

(** [isinstance(val, (int, float))]; the host's [bool] is a subclass of
    [int]. *)
Definition isinstance_int_float (val : Value) : bool :=
  match val with
  | VFloat _ | VInt _ | VBool _ => true
  | _ => false
  end.

(** ** The context *)

Module Ctx.

(** Modelled from the spec: the class [Ctx] of the module [ctx], which
    is not among the sources; only its uses [ctx[name]] and
    [ctx[name] = val] are.  The specification describes it as a chain of
    scopes, each a mapping from identifier to value, with an optional
    enclosing scope.  The chain is a list, innermost scope first. *)
Definition t : Type := list (gmap string Value).

(** Modelled from the spec: item lookup of the missing [Ctx] walks
    outward until the name is found; [None] stands for the error raised
    when it is absent from the whole chain, which [Var.eval] catches as a
    [KeyError]. *)
Fixpoint get (name : string) (c : t) : option Value :=
  match c with
  | [] => None
  | scope :: parent =>
      match scope !! name with
      | Some v => Some v
      | None => get name parent
      end
  end.

(** Modelled from the spec: item assignment of the missing [Ctx] walks
    outward to the nearest scope where the name is already defined and
    updates it in place; it fails ([None]) when the name is absent from
    the whole chain. *)
Fixpoint assign (name : string) (v : Value) (c : t) : option t :=
  match c with
  | [] => None
  | scope :: parent =>
      match scope !! name with
      | Some _ => Some (<[name := v]> scope :: parent)
      | None =>
          match assign name v parent with
          | Some parent' => Some (scope :: parent')
          | None => None
          end
      end
  end.

(** Modelled from the spec: [define] of the missing [Ctx] binds in the
    innermost scope, shadowing outer bindings of the name. *)
Definition define (name : string) (v : Value) (c : t) : t :=
  match c with
  | [] => [ {[ name := v ]} ]
  | scope :: parent => <[name := v]> scope :: parent
  end.

End Ctx.

(** ** Interpreter state *)

(** The context object is shared and mutated in place; [stdout] is the
    sequence of objects handed to the host's [print], oldest first. *)
Record State : Type := mkState {
  ctx : Ctx.t;
  stdout : list Value
}.

Definition set_ctx (c : Ctx.t) (s : State) : State :=
  {| ctx := c; stdout := stdout s |}.

Definition write (v : Value) (s : State) : State :=
  {| ctx := ctx s; stdout := (stdout s ++ [v])%list |}.

(** ** Syntax tree *)

(** The expression nodes that define [eval].  [BinOp] stores the host
    function that implements the operator, as the source does.
    [Setattr], which writes into a host object shared through the
    context, is not embedded: values here are immutable data. *)
Inductive Expr : Type :=
| BinOp (left right : Expr) (op : Value -> Value -> Result Value)
| Var (name : string)
| Literal (value : Value)
| And (left right : Expr)
| Or (left right : Expr)
| UnaryOp (op : unop) (right : Expr)
| Call (callee : Expr) (params : list Expr)
| Assign (name : string) (value : Expr)
| Getattr (obj : Expr) (attr : string).

Inductive Stmt : Type :=
| Print (expr : Expr).

Definition Program : Type := list Stmt.

(** ** Operators of the [runtime] module *)

Module runtime.

(** The module [runtime], imported as [op], is not among the sources;
    the transformer only stores its functions in [BinOp] nodes.  Its
    binary operators are modelled from the rule the specification gives
    for each operator kind. *)

(** Modelled from the spec: the variants of the closed Value type
    (Number, String, Boolean, Nil, Callable, Instance).  The source's
    [runtime] module is missing.  A host int, which only [-True] and
    [-False] produce, is none of them and is kept apart. *)
Inductive Variant : Type :=
| KNumber | KString | KBoolean | KNil | KCallable | KInstance | KHostInt.

Definition variant (v : Value) : Variant :=
  match v with
  | VFloat _ => KNumber
  | VStr _ => KString
  | VBool _ => KBoolean
  | VNone => KNil
  | VNative _ | VWrapper _ _ | VBound _ _ => KCallable
  | VInstance _ _ => KInstance
  | VInt _ => KHostInt
  end.

Definition variant_eqb (a b : Variant) : bool :=
  match a, b with
  | KNumber, KNumber | KString, KString | KBoolean, KBoolean | KNil, KNil
  | KCallable, KCallable | KInstance, KInstance | KHostInt, KHostInt => true
  | _, _ => false
  end.

Definition is_number (v : Value) : bool :=
  match v with
  | VFloat _ => true
  | _ => false
  end.

(** Modelled from the spec: the arithmetic functions of the missing
    [runtime] module.  On two Numbers the result is the IEEE one; on any
    other operand the operation fails with a type error.  The
    division-by-zero policy is left open by the specification; the IEEE
    quotient (an infinity or NaN) is taken. *)
Definition arith (f : float -> float -> float) (a b : Value) : Result Value :=
  match a, b with
  | VFloat x, VFloat y => Ok (VFloat (f x y))
  | _, _ => Raise TypeError
  end.

(** Modelled from the spec: the ordering functions of the missing
    [runtime] module; comparison on operands that are not both Numbers
    fails with a type error. *)
Definition compare (f : float -> float -> bool) (a b : Value) : Result Value :=
  match a, b with
  | VFloat x, VFloat y => Ok (VBool (f x y))
  | _, _ => Raise TypeError
  end.

Definition add := arith PrimFloat.add.
Definition sub := arith PrimFloat.sub.
Definition mul := arith PrimFloat.mul.
Definition truediv := arith PrimFloat.div.

Definition lt := compare PrimFloat.ltb.
Definition le := compare PrimFloat.leb.
Definition gt := compare (fun x y => PrimFloat.ltb y x).
Definition ge := compare (fun x y => PrimFloat.leb y x).

Definition unop_eqb (a b : unop) : bool :=
  match a, b with
  | op_neg, op_neg | op_not, op_not => true
  | op_other f, op_other g => String.eqb f g
  | _, _ => false
  end.

(** Modelled from the spec: comparison by value, used by [eq] and [ne]
    of the missing [runtime] module: IEEE equality on Numbers, structural
    equality on the other variants. *)
Fixpoint value_eqb (a b : Value) {struct a} : bool :=
  match a, b with
  | VBool x, VBool y => Bool.eqb x y
  | VStr x, VStr y => String.eqb x y
  | VFloat x, VFloat y => PrimFloat.eqb x y
  | VNone, VNone => true
  | VInt x, VInt y => Z.eqb x y
  | VNative f, VNative g => String.eqb f g
  | VWrapper o v, VWrapper o' v' => unop_eqb o o' && value_eqb v v'
  | VBound f v, VBound g v' => String.eqb f g && value_eqb v v'
  | VInstance m fs, VInstance m' fs' =>
      bool_decide (m = m') &&
      (fix fields_eqb (l l' : list (string * Value)) {struct l} : bool :=
         match l, l' with
         | [], [] => true
         | (k, v) :: t, (k', v') :: t' =>
             String.eqb k k' && value_eqb v v' && fields_eqb t t'
         | _, _ => false
         end) fs fs'
  | _, _ => false
  end.

(** Modelled from the spec: [runtime.eq], missing from the sources:
    by value within one variant, false across differing variants. *)
Definition eq (a b : Value) : Result Value :=
  if variant_eqb (variant a) (variant b)
  then Ok (VBool (value_eqb a b))
  else Ok (VBool false).

(** Modelled from the spec: [runtime.ne], missing from the sources:
    the negation of [eq], so true across differing variants. *)
Definition ne (a b : Value) : Result Value :=
  if variant_eqb (variant a) (variant b)
  then Ok (VBool (negb (value_eqb a b)))
  else Ok (VBool true).

End runtime.

(** ** Host attribute lookup *)

Fixpoint assoc {A : Type} (k : string) (l : list (string * A)) : option A :=
  match l with
  | [] => None
  | (k', a) :: rest => if String.eqb k k' then Some a else assoc k rest
  end.

(** First match along the method-resolution chain. *)
Fixpoint mro_lookup (name : string) (mro : list class_dict) : option host_fn :=
  match mro with
  | [] => None
  | (_, methods) :: rest =>
      match assoc name methods with
      | Some f => Some f
      | None => mro_lookup name rest
      end
  end.

(** The built-in types of the values that are not instances. *)
Inductive host_type : Type :=
| t_bool | t_str | t_float | t_NoneType | t_int | t_function | t_method.

(** The object's own field mapping ([__dict__]); only instances carry
    fields here. *)
Definition obj_dict (v : Value) : list (string * Value) :=
  match v with
  | VInstance _ fields => fields
  | _ => []
  end.

(** ** Text written by [print] *)

(** An integral binary64 value of magnitude below 2^53, as sign and
    magnitude.  [Prim2SF] gives the value as [m * 2^e]. *)
Definition float_integral (x : float) : option (bool * Z) :=
  match Prim2SF x with
  | S754_zero sg => Some (sg, 0%Z)
  | S754_finite sg m e =>
      if (0 <? e)%Z then None
      else if (Z.pos m mod 2 ^ (- e) =? 0)%Z
           then Some (sg, (Z.pos m / 2 ^ (- e))%Z)
           else None
  | _ => None
  end.

(** The host's [str] on the values for which it is modelled: booleans,
    [None], strings, ints, and floats with an integral value of magnitude
    below 2^53, whose shortest round-trip form is their decimal digits
    followed by [.0].  Other floats and the opaque tags of functions and
    objects are left undetermined ([None]). *)
Definition py_str (v : Value) : option string :=
  match v with
  | VBool true => Some "True"
  | VBool false => Some "False"
  | VNone => Some "None"
  | VStr s => Some s
  | VInt n => Some (pretty n)
  | VFloat x =>
      match float_integral x with
      | Some (sg, n) => Some ((if sg then "-" else "") +:+ pretty n +:+ ".0")
      | None => None
      end
  | _ => None
  end.

(** ** The transformer's node constructors *)

Module LoxTransformer.

Definition program (stmts : list Stmt) : Program := stmts.

Definition op_handler (op : Value -> Value -> Result Value)
    (left right : Expr) : Expr :=
  BinOp left right op.

Definition mul := op_handler runtime.mul.
Definition div := op_handler runtime.truediv.
Definition sub := op_handler runtime.sub.
Definition add := op_handler runtime.add.

Definition gt := op_handler runtime.gt.
Definition lt := op_handler runtime.lt.
Definition ge := op_handler runtime.ge.
Definition le := op_handler runtime.le.
Definition eq := op_handler runtime.eq.
Definition ne := op_handler runtime.ne.

Definition or_ (left right : Expr) : Expr := Or left right.
Definition and_ (left right : Expr) : Expr := And left right.

Definition not_ (right : Expr) : Expr :=
  match right with
  | Call callee params => Call (UnaryOp op_not callee) params
  | _ => UnaryOp op_not right
  end.

Definition neg (right : Expr) : Expr :=
  match right with
  | Call callee params => Call (UnaryOp op_neg callee) params
  | _ => UnaryOp op_neg right
  end.

(** The grammar passes a [Var] node; its [name] is taken. *)
Definition assign (name : string) (expr : Expr) : Expr := Assign name expr.
Definition getattr (obj : Expr) (attr : string) : Expr := Getattr obj attr.
Definition call (callee : Expr) (params : list Expr) : Expr := Call callee params.
Definition params (args : list Expr) : list Expr := args.

Definition print_cmd (expr : Expr) : Stmt := Print expr.

Definition VAR (token : string) : Expr := Var token.
(** [float(token)]: the token's text is already read as a binary64 value. *)
Definition NUMBER (token : float) : Expr := Literal (VFloat token).
(** [str(token)[1:-1]]: the token without its quotes. *)
Definition STRING (token : string) : Expr :=
  Literal (VStr (String.substring 1 (Nat.sub (String.length token) 2) token)).
Definition NIL : Expr := Literal VNone.
Definition BOOL (token : string) : Expr := Literal (VBool (String.eqb token "true")).

End LoxTransformer.

(** ** Evaluation *)

(** State and error threading: a computation takes the state and gives a
    result or a raised exception, with the state as it was left. *)
Definition M (A : Type) : Type := State -> Result A * State.

Definition ret {A} (a : A) : M A := fun s => (Ok a, s).
Definition raise {A} (e : PyExn) : M A := fun s => (Raise e, s).
Definition lift {A} (r : Result A) : M A := fun s => (r, s).

Definition bind {A B} (m : M A) (k : A -> M B) : M B :=
  fun s =>
    match m s with
    | (Ok a, s') => k a s'
    | (Raise e, s') => (Raise e, s')
    end.

Notation "x <- m ;; k" := (bind m (fun x => k))
  (at level 100, m at next level, right associativity).

(** A computation keeps a name unbound when it cannot bind it. *)
Definition keeps_unbound {A} (name : string) (m : M A) : Prop :=
  forall s, Ctx.get name (ctx s) = None ->
            Ctx.get name (ctx (m s).2) = None.

(** [[arg.eval(ctx) for arg in params]]: left to right, stopping at the
    first exception. *)
Definition eval_list (ev : Expr -> M Value) : list Expr -> M (list Value) :=
  fix go (params : list Expr) : M (list Value) :=
    match params with
    | [] => ret []
    | arg :: rest =>
        v <- ev arg ;;
        vs <- go rest ;;
        ret (v :: vs)
    end.

Section Evaluator.

(** What calling a host function object does, as a function of its
    arguments.  Effects a host function may have of its own (writing to
    the output, changing host objects) are not represented. *)
Variable host_call : host_fn -> list Value -> Result Value.

(** The method-resolution chains of the host's built-in types. *)
Variable builtin_mro : host_type -> list class_dict.

Definition type_mro (v : Value) : list class_dict :=
  match v with
  | VInstance mro _ => mro
  | VBool _ => builtin_mro t_bool
  | VStr _ => builtin_mro t_str
  | VFloat _ => builtin_mro t_float
  | VNone => builtin_mro t_NoneType
  | VInt _ => builtin_mro t_int
  | VNative _ | VWrapper _ _ => builtin_mro t_function
  | VBound _ _ => builtin_mro t_method
  end.

(** The host's [getattr(value, attr)]: the object's own fields first,
    then the classes of the chain in order; a method found on a class is
    bound to the object. *)
Definition py_getattr (value : Value) (attr : string) : Result Value :=
  match assoc attr (obj_dict value) with
  | Some v => Ok v
  | None =>
      match mro_lookup attr (type_mro value) with
      | Some f => Ok (VBound f value)
      | None => Raise (AttributeError attr)
      end
  end.

(** The host's unary minus on an int or a float. *)
Definition py_neg (val : Value) : Result Value :=
  match val with
  | VFloat x => Ok (VFloat (- x)%float)
  | VInt n => Ok (VInt (- n))
  | VBool b => Ok (VInt (- (if b then 1 else 0)))
  | _ => Raise TypeError
  end.

(** [UnaryOp._apply] *)
Definition UnaryOp_apply (op : unop) (val : Value) : Result Value :=
  match op with
  | op_neg =>
      if negb (isinstance_int_float val) then Raise TypeError
      else py_neg val
  | op_not =>
      let truthy :=
        negb (match val with VBool false => true | _ => false end)
        && negb (match val with VNone => true | _ => false end) in
      Ok (VBool (negb truthy))
  | op_other f => host_call f [val]
  end.

(** The operator applied to what a computation returned. *)
Definition apply_to_result (op : unop) (p : Result Value * State)
  : Result Value * State :=
  (rbind p.1 (UnaryOp_apply op), p.2).

(** Calling a host object on the argument list [args]. *)
Fixpoint invoke (fn : Value) (args : list Value) : Result Value :=
  match fn with
  | VNative f => host_call f args
  | VWrapper op val => rbind (invoke val args) (UnaryOp_apply op)
  | VBound f self => host_call f (self :: args)
  | _ => Raise TypeError
  end.

Fixpoint eval (e : Expr) : M Value :=
  match e with
  | BinOp left_ right_ op =>
      a <- eval left_ ;;
      b <- eval right_ ;;
      lift (op a b)
  | Var name =>
      fun s =>
        match Ctx.get name (ctx s) with
        | Some v => (Ok v, s)
        | None => (Raise (NameError name), s)
        end
  | Literal value => ret value
  | And left_ right_ =>
      left_val <- eval left_ ;;
      if negb (is_truthy left_val) then ret left_val
      else eval right_
  | Or left_ right_ =>
      left_val <- eval left_ ;;
      if is_truthy left_val then ret left_val
      else eval right_
  | UnaryOp op right_ =>
      val <- eval right_ ;;
      if callable val then ret (VWrapper op val)
      else lift (UnaryOp_apply op val)
  | Call callee params =>
      fn <- eval callee ;;
      args <- eval_list eval params ;;
      if callable fn then lift (invoke fn args)
      else raise TypeError
  | Assign name value =>
      val <- eval value ;;
      fun s =>
        match Ctx.assign name val (ctx s) with
        | Some c => (Ok val, set_ctx c s)
        | None => (Raise (KeyError name), s)
        end
  | Getattr obj attr =>
      value <- eval obj ;;
      match py_getattr value attr with
      | Raise (AttributeError _) => raise (AttributeError attr)
      | r => lift r
      end
  end.

(** [Print.eval] *)
Definition exec (st : Stmt) : M unit :=
  match st with
  | Print expr =>
      v <- eval expr ;;
      fun s => (Ok tt, write v s)
  end.

(** [Program.eval] *)
Fixpoint run (stmts : Program) : M unit :=
  match stmts with
  | [] => ret tt
  | stmt :: rest => _ <- exec stmt ;; run rest
  end.

End Evaluator.

(** ** Relations between the state before and after a computation *)

Definition steps_within {A} (R : State -> State -> Prop) (m : M A) : Prop :=
  forall s, R s (m s).2.

(** The names each scope of the chain defines, innermost first. *)
Definition scope_domains (c : Ctx.t) : list (gset string) :=
  map (fun scope : gmap string Value => dom scope) c.

(** ** The patch [_lox_eval] applies to a source text *)

(** The host's [str.replace(old, new)] for a non-empty [old]: occurrences
    are replaced from the left and do not overlap.  [skip] counts the
    characters of a matched occurrence still to be dropped. *)
Fixpoint replace_from (old new : string) (skip : nat) (s : string) : string :=
  match s with
  | EmptyString => EmptyString
  | String c rest =>
      match skip with
      | S k => replace_from old new k rest
      | O =>
          if String.prefix old s
          then new +:+ replace_from old new (Nat.pred (String.length old)) rest
          else String c (replace_from old new O rest)
      end
  end.

Definition py_replace (old new s : string) : string :=
  replace_from old new O s.

(** Whether [old] occurs in [s] at some position. *)
Fixpoint occurs (old s : string) : bool :=
  String.prefix old s
  || match s with
     | EmptyString => false
     | String _ rest => occurs old rest
     end.

(** [src.replace("!", " not ").replace("true", "True").replace("false", "False")] *)
Definition patched (src : string) : string :=
  py_replace "false" "False"
    (py_replace "true" "True"
       (py_replace "!" " not " src)).

(** ** A concrete host, for running the evaluator on examples *)

(** [sqrt] is the host's square root; [always] answers [True]. *)
Definition demo_call (f : host_fn) (args : list Value) : Result Value :=
  if String.eqb f "sqrt" then
    match args with
    | [VFloat x] => Ok (VFloat (PrimFloat.sqrt x))
    | _ => Raise TypeError
    end
  else if String.eqb f "always" then Ok (VBool true)
  else Raise (HostError f).

Definition demo_mro (t : host_type) : list class_dict := [("object", [])].

(** One global scope with [sqrt], [always] and a variable [x = 1]. *)
Definition demo_state : State :=
  {| ctx := [ {[ "sqrt" := VNative "sqrt";
                 "always" := VNative "always";
                 "x" := VFloat 1 ]} ];
     stdout := [] |}.

(** An object of class [B < A] with one field. *)
Definition demo_object : Value :=
  VInstance [("B", [("greet", "B.greet")]); ("A", [("greet", "A.greet"); ("name", "A.name")])]
            [("size", VFloat 2)].

(** A host whose only function, [make], returns a function. *)
Definition factory_call (f : host_fn) (args : list Value) : Result Value :=
  if String.eqb f "make" then Ok (VNative "made")
  else Raise (HostError f).

Definition factory_state : State :=
  {| ctx := [ {[ "make" := VNative "make" ]} ]; stdout := [] |}.

(** * Properties *)

(** ** The context *)

Lemma Ctx_assign_unbound name v c :
  Ctx.get name c = None -> Ctx.assign name v c = None.
Proof.
  induction c as [|scope parent IH]; simpl; [reflexivity|].
  destruct (scope !! name) eqn:E; [discriminate|].
  intros H. rewrite (IH H). reflexivity.
Qed.

Lemma Ctx_get_assign n v c c' name :
  Ctx.assign n v c = Some c' ->
  Ctx.get name c' = if decide (name = n) then Some v else Ctx.get name c.
Proof.
  revert c'. induction c as [|scope parent IH]; simpl; intros c' H; [discriminate|].
  destruct (scope !! n) eqn:E.
  - inversion H; subst; clear H. simpl.
    destruct (decide (name = n)) as [->|Hne].
    + rewrite lookup_insert_eq. reflexivity.
    + rewrite lookup_insert_ne by congruence. reflexivity.
  - destruct (Ctx.assign n v parent) as [parent'|] eqn:Ea; [|discriminate].
    inversion H; subst; clear H. simpl.
    specialize (IH parent' eq_refl).
    destruct (decide (name = n)) as [->|Hne].
    + rewrite E. exact IH.
    + rewrite IH. reflexivity.
Qed.

Lemma Ctx_assign_keeps_unbound n v c c' name :
  Ctx.assign n v c = Some c' ->
  Ctx.get name c = None -> Ctx.get name c' = None.
Proof.
  intros Ha Hg. rewrite (Ctx_get_assign _ _ _ _ name Ha).
  destruct (decide (name = n)) as [->|]; [|assumption].
  rewrite (Ctx_assign_unbound _ v _ Hg) in Ha. discriminate.
Qed.

(** ** Induction over expressions, through the parameter lists of calls *)

Lemma Expr_ind_nested (P : Expr -> Prop)
  (HBinOp : forall l r op, P l -> P r -> P (BinOp l r op))
  (HVar : forall name, P (Var name))
  (HLiteral : forall value, P (Literal value))
  (HAnd : forall l r, P l -> P r -> P (And l r))
  (HOr : forall l r, P l -> P r -> P (Or l r))
  (HUnaryOp : forall op r, P r -> P (UnaryOp op r))
  (HCall : forall callee params, P callee -> Forall P params -> P (Call callee params))
  (HAssign : forall name value, P value -> P (Assign name value))
  (HGetattr : forall obj attr, P obj -> P (Getattr obj attr)) :
  forall e, P e.
Proof.
  fix IH 1. intros [l r op|name|value|l r|l r|op r|callee params|name value|obj attr].
  - apply HBinOp; apply IH.
  - apply HVar.
  - apply HLiteral.
  - apply HAnd; apply IH.
  - apply HOr; apply IH.
  - apply HUnaryOp; apply IH.
  - apply HCall; [apply IH|].
    induction params as [|p ps IHps]; constructor; [apply IH|exact IHps].
  - apply HAssign; apply IH.
  - apply HGetattr; apply IH.
Qed.

(** ** Truthiness *)

Lemma is_truthy_false_inv v :
  is_truthy v = false -> v = VBool false \/ v = VNone.
Proof.
  destruct v as [[|]| | | | | | | |]; simpl; intros H;
    try discriminate; auto.
Qed.

(** C2: the truthiness coercion is false exactly on [Boolean(false)] and
    [Nil], and true on every other value, in particular on [Number(0)],
    on negative zero and on the empty [String]. *)
Theorem is_truthy_spec :
  (forall v, is_truthy v = false <-> (v = VBool false \/ v = VNone))
  /\ (forall v, is_truthy v = true <-> (v <> VBool false /\ v <> VNone))
  /\ is_truthy (VFloat 0) = true
  /\ is_truthy (VFloat (-0)) = true
  /\ is_truthy (VInt 0) = true
  /\ is_truthy (VStr "") = true.
Proof.
  split; [|split].
  - intros v. split; [apply is_truthy_false_inv|].
    intros [->| ->]; reflexivity.
  - intros v. split.
    + intros H. split; intros ->; discriminate.
    + intros [H1 H2]. destruct (is_truthy v) eqn:E; [reflexivity|].
      destruct (is_truthy_false_inv _ E); contradiction.
  - repeat split.
Qed.

(** ** Sequencing *)

Lemma bind_Ok {A B} (m : M A) (k : A -> M B) s a s' :
  m s = (Ok a, s') -> bind m k s = k a s'.
Proof. unfold bind. intros ->. reflexivity. Qed.

Lemma bind_Raise {A B} (m : M A) (k : A -> M B) s e s' :
  m s = (Raise e, s') -> bind m k s = (Raise e, s').
Proof. unfold bind. intros ->. reflexivity. Qed.

Ltac step H := rewrite (bind_Ok _ _ _ _ _ H); cbn beta.

Section Properties.

Variable host_call : host_fn -> list Value -> Result Value.
Variable builtin_mro : host_type -> list class_dict.

#[local] Abbreviation eval := (eval host_call builtin_mro).
#[local] Abbreviation exec := (exec host_call builtin_mro).
#[local] Abbreviation invoke := (invoke host_call).
#[local] Abbreviation UnaryOp_apply := (UnaryOp_apply host_call).
#[local] Abbreviation apply_to_result := (apply_to_result host_call).
#[local] Abbreviation type_mro := (type_mro builtin_mro).

(** *** Unary operators *)

(** The truthiness test written out in [_apply] is [is_truthy]. *)
Lemma UnaryOp_apply_not val :
  UnaryOp_apply op_not val = Ok (VBool (negb (is_truthy val))).
Proof. destruct val as [[|]| | | | | | | |]; reflexivity. Qed.




Lemma UnaryOp_eval_not_callable op right_ s val s' :
  eval right_ s = (Ok val, s') ->
  callable val = false ->
  eval (UnaryOp op right_) s = (UnaryOp_apply op val, s').
Proof. intros He Hc. simpl. step He. rewrite Hc. reflexivity. Qed.


(** [Neg] negates a Number and raises [TypeError] on a String, on Nil
    and on an instance. *)
Lemma UnaryOp_neg_number_or_reject right_ s val s' :
  eval right_ s = (Ok val, s') ->
  callable val = false ->
  match val with
  | VFloat x => eval (UnaryOp op_neg right_) s = (Ok (VFloat (- x)%float), s')
  | VStr _ | VNone | VInstance _ _ =>
      eval (UnaryOp op_neg right_) s = (Raise TypeError, s')
  | _ => True
  end.
Proof.
  intros He Hc. rewrite (UnaryOp_eval_not_callable _ _ _ _ _ He Hc).
  destruct val; try exact I; reflexivity.
Qed.

(** C7: [-true] is accepted.  The operand is a Boolean, which is not a
    Number, yet evaluation returns the host integer [-1] instead of
    raising [TypeError]: the int-or-float test of [_apply] lets the
    host's booleans through. *)
Theorem UnaryOp_neg_boolean_accepted s :
  eval (LoxTransformer.neg (LoxTransformer.BOOL "true")) s = (Ok (VInt (-1)), s)
  /\ eval (LoxTransformer.neg (LoxTransformer.BOOL "false")) s = (Ok (VInt 0), s).
Proof. split; reflexivity. Qed.

(** *** Short-circuit operators *)

(** C3: [And] evaluates its left operand; a falsy left value is the
    result as it is, in the state the left operand left, whatever the
    right operand is, which is therefore not evaluated; on a truthy left
    value the result is that of the right operand evaluated next.  [Or]
    mirrors it: a truthy left value is the result and the right operand
    is not evaluated. *)
Theorem And_Or_short_circuit left_ right_ s left_val s1 :
  eval left_ s = (Ok left_val, s1) ->
  (is_truthy left_val = false -> eval (And left_ right_) s = (Ok left_val, s1))
  /\ (is_truthy left_val = true -> eval (And left_ right_) s = eval right_ s1)
  /\ (is_truthy left_val = true -> eval (Or left_ right_) s = (Ok left_val, s1))
  /\ (is_truthy left_val = false -> eval (Or left_ right_) s = eval right_ s1).
Proof.
  intros He. repeat split; intros Ht; simpl; step He; rewrite Ht; reflexivity.
Qed.

(** An exception in the left operand leaves the right one unevaluated
    as well. *)
Lemma And_Or_left_raises left_ right_ s e s1 :
  eval left_ s = (Raise e, s1) ->
  eval (And left_ right_) s = (Raise e, s1)
  /\ eval (Or left_ right_) s = (Raise e, s1).
Proof.
  intros He. split; simpl; rewrite (bind_Raise _ _ _ _ _ He); reflexivity.
Qed.

(** *** Binary operators *)

Lemma BinOp_eval left_ right_ op s a s1 b s2 :
  eval left_ s = (Ok a, s1) ->
  eval right_ s1 = (Ok b, s2) ->
  eval (BinOp left_ right_ op) s = (op a b, s2).
Proof. intros Hl Hr. simpl. step Hl. step Hr. reflexivity. Qed.

Lemma variant_eqb_eq a b :
  runtime.variant_eqb a b = true <-> a = b.
Proof. destruct a, b; simpl; split; intros H; congruence. Qed.

Lemma variant_eqb_neq a b :
  a <> b -> runtime.variant_eqb a b = false.
Proof.
  intros H. destruct (runtime.variant_eqb a b) eqn:E; [|reflexivity].
  apply variant_eqb_eq in E. contradiction.
Qed.

(** C4: on operands that evaluate to values of differing variants an
    [Eq] expression yields false and an [Ne] expression yields true; on
    operands of one variant they compare by value. *)
Theorem Eq_Ne_by_variant left_ right_ s a s1 b s2 :
  eval left_ s = (Ok a, s1) ->
  eval right_ s1 = (Ok b, s2) ->
  (runtime.variant a <> runtime.variant b ->
     eval (LoxTransformer.eq left_ right_) s = (Ok (VBool false), s2)
     /\ eval (LoxTransformer.ne left_ right_) s = (Ok (VBool true), s2))
  /\ (runtime.variant a = runtime.variant b ->
     eval (LoxTransformer.eq left_ right_) s
       = (Ok (VBool (runtime.value_eqb a b)), s2)
     /\ eval (LoxTransformer.ne left_ right_) s
       = (Ok (VBool (negb (runtime.value_eqb a b))), s2)).
Proof.
  intros Hl Hr.
  unfold LoxTransformer.eq, LoxTransformer.ne, LoxTransformer.op_handler.
  rewrite !(BinOp_eval _ _ _ _ _ _ _ _ Hl Hr).
  unfold runtime.eq, runtime.ne. split; intros Hv.
  - rewrite (variant_eqb_neq _ _ Hv). split; reflexivity.
  - apply variant_eqb_eq in Hv. rewrite Hv. split; reflexivity.
Qed.

Lemma arith_reject f a b :
  runtime.is_number a = false \/ runtime.is_number b = false ->
  runtime.arith f a b = Raise TypeError.
Proof.
  intros [H|H]; destruct a; try discriminate H; try reflexivity;
    destruct b; try discriminate H; reflexivity.
Qed.

(** C5: an [Add], [Sub], [Mul] or [Div] expression with an operand that
    evaluates to a value that is not a Number fails with a type error
    and produces no value. *)
Theorem arithmetic_rejects_non_numbers left_ right_ s a s1 b s2 :
  eval left_ s = (Ok a, s1) ->
  eval right_ s1 = (Ok b, s2) ->
  runtime.is_number a = false \/ runtime.is_number b = false ->
  eval (LoxTransformer.add left_ right_) s = (Raise TypeError, s2)
  /\ eval (LoxTransformer.sub left_ right_) s = (Raise TypeError, s2)
  /\ eval (LoxTransformer.mul left_ right_) s = (Raise TypeError, s2)
  /\ eval (LoxTransformer.div left_ right_) s = (Raise TypeError, s2)
  /\ error_kind TypeError = TypeErrorKind.
Proof.
  intros Hl Hr Hn.
  unfold LoxTransformer.add, LoxTransformer.sub, LoxTransformer.mul,
    LoxTransformer.div, LoxTransformer.op_handler.
  rewrite !(BinOp_eval _ _ _ _ _ _ _ _ Hl Hr).
  unfold runtime.add, runtime.sub, runtime.mul, runtime.truediv.
  rewrite !(arith_reject _ _ _ Hn). repeat split.
Qed.

(** The non-numeric variants named by the specification are not
    Numbers. *)
Lemma non_numeric_variants v :
  runtime.variant v <> runtime.KNumber <-> runtime.is_number v = false.
Proof. destruct v; simpl; split; intros H; congruence. Qed.

(** *** Assignment *)

Lemma keeps_ret {A} name (a : A) : keeps_unbound name (ret a).
Proof. intros s H. exact H. Qed.

Lemma keeps_raise {A} name e : keeps_unbound name (@raise A e).
Proof. intros s H. exact H. Qed.

Lemma keeps_lift {A} name (r : Result A) : keeps_unbound name (lift r).
Proof. intros s H. exact H. Qed.

Lemma keeps_bind {A B} name (m : M A) (k : A -> M B) :
  keeps_unbound name m ->
  (forall a, keeps_unbound name (k a)) ->
  keeps_unbound name (bind m k).
Proof.
  intros Hm Hk s H. unfold bind. specialize (Hm s H).
  destruct (m s) as [[a|e] s1]; simpl in *; [apply Hk|]; exact Hm.
Qed.

Lemma keeps_eval_list name (ev : Expr -> M Value) params :
  Forall (fun e => keeps_unbound name (ev e)) params ->
  keeps_unbound name (eval_list ev params).
Proof.
  induction 1 as [|p ps Hp _ IH]; simpl.
  - apply keeps_ret.
  - apply keeps_bind; [exact Hp|]. intros v.
    apply keeps_bind; [exact IH|]. intros vs. apply keeps_ret.
Qed.

Lemma keeps_assign name n val :
  keeps_unbound name
    (fun s => match Ctx.assign n val (ctx s) with
              | Some c => (Ok val, set_ctx c s)
              | None => (Raise (KeyError n), s)
              end).
Proof.
  intros s H. destruct (Ctx.assign n val (ctx s)) as [c|] eqn:E; simpl.
  - exact (Ctx_assign_keeps_unbound _ _ _ _ _ E H).
  - exact H.
Qed.

(** No expression binds a name that is unbound in the whole chain. *)
Lemma eval_keeps_unbound name e : keeps_unbound name (eval e).
Proof.
  induction e as [l r op IHl IHr|n|value|l r IHl IHr|l r IHl IHr|op r IHr
                 |callee params IHc IHps|n value IHv|obj attr IHo]
    using Expr_ind_nested; simpl.
  - apply keeps_bind; [exact IHl|]. intros a.
    apply keeps_bind; [exact IHr|]. intros b. apply keeps_lift.
  - intros s H. destruct (Ctx.get n (ctx s)); exact H.
  - apply keeps_ret.
  - apply keeps_bind; [exact IHl|]. intros v.
    destruct (negb (is_truthy v)); [apply keeps_ret|exact IHr].
  - apply keeps_bind; [exact IHl|]. intros v.
    destruct (is_truthy v); [apply keeps_ret|exact IHr].
  - apply keeps_bind; [exact IHr|]. intros v.
    destruct (callable v); [apply keeps_ret|apply keeps_lift].
  - apply keeps_bind; [exact IHc|]. intros fn.
    apply keeps_bind; [apply keeps_eval_list; exact IHps|]. intros args.
    destruct (callable fn); [apply keeps_lift|apply keeps_raise].
  - apply keeps_bind; [exact IHv|]. intros val. apply keeps_assign.
  - apply keeps_bind; [exact IHo|]. intros v.
    destruct (py_getattr builtin_mro v attr) as [x|[]];
      first [apply keeps_lift|apply keeps_raise].
Qed.

(** C6: assigning to a name that is bound nowhere in the scope chain
    never yields a value and leaves the name unbound in the resulting
    context; once the right-hand side has produced its value the failure
    is the context's missing-name error, of the UndefinedVariable kind,
    and the context is the one the right-hand side left. *)
Theorem Assign_unbound_fails name value s :
  Ctx.get name (ctx s) = None ->
  (forall v, (eval (Assign name value) s).1 <> Ok v)
  /\ Ctx.get name (ctx (eval (Assign name value) s).2) = None
  /\ (forall val s1, eval value s = (Ok val, s1) ->
        eval (Assign name value) s = (Raise (KeyError name), s1)
        /\ error_kind (KeyError name) = UndefinedVariable).
Proof.
  intros H. pose proof (eval_keeps_unbound name value s H) as Hv.
  split; [|split].
  - intros v. simpl. unfold bind.
    destruct (eval value s) as [[val|e] s1]; simpl in *; [|discriminate].
    rewrite (Ctx_assign_unbound _ val _ Hv). discriminate.
  - apply eval_keeps_unbound, H.
  - intros val s1 He. rewrite He in Hv. simpl in Hv.
    split; [|reflexivity]. simpl. step He.
    rewrite (Ctx_assign_unbound _ val _ Hv). reflexivity.
Qed.

(** Assigning to a bound name succeeds and the new value is read back. *)
Lemma Assign_bound name value s val s1 old :
  eval value s = (Ok val, s1) ->
  Ctx.get name (ctx s1) = Some old ->
  exists c, eval (Assign name value) s = (Ok val, set_ctx c s1)
            /\ Ctx.get name c = Some val.
Proof.
  intros He Hg. simpl. step He.
  destruct (Ctx.assign name val (ctx s1)) as [c|] eqn:E.
  - exists c. split; [reflexivity|].
    rewrite (Ctx_get_assign _ _ _ _ name E).
    destruct (decide (name = name)); [reflexivity|contradiction].
  - exfalso. clear He. revert E Hg. generalize (ctx s1) as c.
    induction c as [|scope parent IH]; simpl; [discriminate|].
    destruct (scope !! name); [discriminate|].
    destruct (Ctx.assign name val parent); [discriminate|].
    intros _ Hg. apply IH; [reflexivity|exact Hg].
Qed.

(** *** Attribute access *)

Lemma Getattr_field obj attr s value s' v :
  eval obj s = (Ok value, s') ->
  assoc attr (obj_dict value) = Some v ->
  eval (Getattr obj attr) s = (Ok v, s').
Proof.
  intros He Hf. simpl. step He. unfold py_getattr.
  rewrite Hf. reflexivity.
Qed.

Lemma Getattr_method obj attr s value s' f :
  eval obj s = (Ok value, s') ->
  assoc attr (obj_dict value) = None ->
  mro_lookup attr (type_mro value) = Some f ->
  eval (Getattr obj attr) s = (Ok (VBound f value), s').
Proof.
  intros He Hf Hm. simpl. step He. unfold py_getattr.
  rewrite Hf, Hm. reflexivity.
Qed.

(** C9: when the attribute name is neither in the field mapping of the
    value the object expression evaluates to nor in any class of its
    method-resolution chain, a [Getattr] expression fails with an
    attribute error. *)
Theorem Getattr_missing obj attr s value s' :
  eval obj s = (Ok value, s') ->
  assoc attr (obj_dict value) = None ->
  mro_lookup attr (type_mro value) = None ->
  eval (Getattr obj attr) s = (Raise (AttributeError attr), s')
  /\ error_kind (AttributeError attr) = AttributeErrorKind.
Proof.
  intros He Hf Hm. split; [|reflexivity].
  simpl. step He. unfold py_getattr.
  rewrite Hf, Hm. reflexivity.
Qed.

(** *** Calls under a unary operator *)

Lemma Call_eval callee params s fn s1 :
  eval callee s = (Ok fn, s1) ->
  eval (Call callee params) s
  = match eval_list eval params s1 with
    | (Ok args, s2) =>
        if callable fn then (invoke fn args, s2) else (Raise TypeError, s2)
    | (Raise e, s2) => (Raise e, s2)
    end.
Proof.
  intros He. simpl. step He. unfold bind.
  destruct (eval_list _ params s1) as [[args|e] s2]; [|reflexivity].
  destruct (callable fn); reflexivity.
Qed.

Lemma Call_UnaryOp_eval op callee params s fn s1 :
  eval callee s = (Ok fn, s1) ->
  callable fn = true ->
  eval (Call (UnaryOp op callee) params) s
  = apply_to_result op (eval (Call callee params) s).
Proof.
  intros He Hc.
  assert (Hu : eval (UnaryOp op callee) s = (Ok (VWrapper op fn), s1)).
  { simpl. step He. rewrite Hc. reflexivity. }
  rewrite (Call_eval _ _ _ _ _ Hu), (Call_eval _ _ _ _ _ He).
  unfold apply_to_result.
  destruct (eval_list _ params s1) as [[args|e] s2]; [|reflexivity].
  rewrite Hc. reflexivity.
Qed.

(** C1: the callable built by [Neg] over a callable does not require a
    numeric result.  When the wrapped callable returns a Boolean, which
    is not a Number, invoking the wrapper returns the host integer [-1]
    (for true) or [0] (for false) instead of raising [TypeError]; so
    does the call [-f(args)] as the transformer builds it.  The
    int-or-float test of [_apply] lets the host's Booleans through. *)
Theorem UnaryOp_wrapper_neg_boolean_accepted callee params s fn s1 args s2 b :
  eval callee s = (Ok fn, s1) ->
  callable fn = true ->
  eval_list eval params s1 = (Ok args, s2) ->
  invoke fn args = Ok (VBool b) ->
  eval (UnaryOp op_neg callee) s = (Ok (VWrapper op_neg fn), s1)
  /\ invoke (VWrapper op_neg fn) args = Ok (VInt (- (if b then 1 else 0)))
  /\ eval (LoxTransformer.neg (Call callee params)) s
     = (Ok (VInt (- (if b then 1 else 0))), s2).
Proof.
  intros He Hc Hargs Hinv. split; [|split].
  - simpl. step He. rewrite Hc. reflexivity.
  - simpl. rewrite Hinv. reflexivity.
  - unfold LoxTransformer.neg.
    rewrite (Call_UnaryOp_eval _ _ _ _ _ _ He Hc), (Call_eval _ _ _ _ _ He).
    rewrite Hargs, Hc, Hinv. reflexivity.
Qed.

(** Where the original call raises or returns a value that is not itself
    callable, the rebuilt call also agrees with the unary node evaluated
    over the original call.  (On a callable result the unary node would
    wrap it instead of applying the operator.) *)
Lemma Call_UnaryOp_vs_UnaryOp_Call op callee params s fn s1 :
  eval callee s = (Ok fn, s1) ->
  callable fn = true ->
  match (eval (Call callee params) s).1 with
  | Ok v => callable v = false
  | Raise _ => True
  end ->
  eval (Call (UnaryOp op callee) params) s
  = eval (UnaryOp op (Call callee params)) s.
Proof.
  intros He Hc Hres. rewrite (Call_UnaryOp_eval _ _ _ _ _ _ He Hc).
  unfold apply_to_result.
  change (eval (UnaryOp op (Call callee params)) s)
    with (bind (eval (Call callee params))
            (fun val => if callable val then ret (VWrapper op val)
                        else lift (UnaryOp_apply op val)) s).
  unfold bind.
  destruct (eval (Call callee params) s) as [[v|e] s2]; simpl in *;
    [rewrite Hres|]; reflexivity.
Qed.

(** C10: a call under [!] or unary [-] is rebuilt by the transformer as
    a call whose callee is the unary node over the original callee, with
    the same arguments; when the callee evaluates to a callable, the
    rebuilt call ends in the same state as the original call and its
    result is the operator applied to the original call's result (an
    exception of the original call is passed on). *)
Theorem unary_over_call_rewrite callee params s fn s1 :
  eval callee s = (Ok fn, s1) ->
  callable fn = true ->
  LoxTransformer.not_ (Call callee params)
    = Call (UnaryOp op_not callee) params
  /\ LoxTransformer.neg (Call callee params)
    = Call (UnaryOp op_neg callee) params
  /\ eval (LoxTransformer.not_ (Call callee params)) s
    = apply_to_result op_not (eval (Call callee params) s)
  /\ eval (LoxTransformer.neg (Call callee params)) s
    = apply_to_result op_neg (eval (Call callee params) s).
Proof.
  intros He Hc. split; [reflexivity|]. split; [reflexivity|].
  unfold LoxTransformer.not_, LoxTransformer.neg.
  split; apply Call_UnaryOp_eval with (fn := fn) (s1 := s1); assumption.
Qed.

(** *** Print *)

(** C8, as the code has it: [Print] hands the value of its expression
    to the host's [print], which writes the host's text of it: a Boolean
    is written [True] or [False], Nil is written [None], and a Number
    with an integral value of magnitude below 2^53 is written as its
    decimal digits followed by [.0]. *)
Theorem Print_writes_host_text expr s v s' :
  eval expr s = (Ok v, s') ->
  exec (Print expr) s = (Ok tt, write v s')
  /\ stdout (write v s') = (stdout s' ++ [v])%list
  /\ (forall b : bool,
        py_str (VBool b) = Some (if b then "True" else "False"))
  /\ py_str VNone = Some "None"
  /\ (forall x sg n, float_integral x = Some (sg, n) ->
        py_str (VFloat x)
        = Some ((if sg then "-" else "") +:+ pretty n +:+ ".0")).
Proof.
  intros He. split; [|split; [|split; [|split]]].
  - simpl. step He. reflexivity.
  - reflexivity.
  - intros [|]; reflexivity.
  - reflexivity.
  - intros x sg n Hx. simpl. rewrite Hx. reflexivity.
Qed.

End Properties.

(** * Further properties of the evaluator *)

Section MoreProperties.

Variable host_call : host_fn -> list Value -> Result Value.
Variable builtin_mro : host_type -> list class_dict.

#[local] Abbreviation eval := (eval host_call builtin_mro).
#[local] Abbreviation exec := (exec host_call builtin_mro).
#[local] Abbreviation run := (run host_call builtin_mro).
#[local] Abbreviation invoke := (invoke host_call).
#[local] Abbreviation UnaryOp_apply := (UnaryOp_apply host_call).
#[local] Abbreviation apply_to_result := (apply_to_result host_call).

(** ** What evaluation leaves alone *)

Section StepsWithin.

Variable R : State -> State -> Prop.
Hypothesis R_refl : forall s, R s s.
Hypothesis R_trans : forall s1 s2 s3, R s1 s2 -> R s2 s3 -> R s1 s3.
Hypothesis R_assign : forall n v s c,
  Ctx.assign n v (ctx s) = Some c -> R s (set_ctx c s).

Lemma within_ret {A} (a : A) : steps_within R (ret a).
Proof. intros s. apply R_refl. Qed.

Lemma within_raise {A} e : steps_within R (@raise A e).
Proof. intros s. apply R_refl. Qed.

Lemma within_lift {A} (r : Result A) : steps_within R (lift r).
Proof. intros s. apply R_refl. Qed.

Lemma within_bind {A B} (m : M A) (k : A -> M B) :
  steps_within R m ->
  (forall a, steps_within R (k a)) ->
  steps_within R (bind m k).
Proof.
  intros Hm Hk s. unfold bind. specialize (Hm s).
  destruct (m s) as [[a|e] s1]; simpl in *; [|exact Hm].
  eapply R_trans; [exact Hm|apply Hk].
Qed.

Lemma within_eval_list (ev : Expr -> M Value) params :
  Forall (fun e => steps_within R (ev e)) params ->
  steps_within R (eval_list ev params).
Proof.
  induction 1 as [|p ps Hp _ IH]; simpl.
  - apply within_ret.
  - apply within_bind; [exact Hp|]. intros v.
    apply within_bind; [exact IH|]. intros vs. apply within_ret.
Qed.

(** A reflexive and transitive relation that every successful item
    assignment respects holds between the states before and after the
    evaluation of any expression. *)
Lemma within_eval e : steps_within R (eval e).
Proof.
  induction e as [l r op IHl IHr|n|value|l r IHl IHr|l r IHl IHr|op r IHr
                 |callee params IHc IHps|n value IHv|obj attr IHo]
    using Expr_ind_nested; simpl.
  - apply within_bind; [exact IHl|]. intros a.
    apply within_bind; [exact IHr|]. intros b. apply within_lift.
  - intros s. destruct (Ctx.get n (ctx s)); apply R_refl.
  - apply within_ret.
  - apply within_bind; [exact IHl|]. intros v.
    destruct (negb (is_truthy v)); [apply within_ret|exact IHr].
  - apply within_bind; [exact IHl|]. intros v.
    destruct (is_truthy v); [apply within_ret|exact IHr].
  - apply within_bind; [exact IHr|]. intros v.
    destruct (callable v); [apply within_ret|apply within_lift].
  - apply within_bind; [exact IHc|]. intros fn.
    apply within_bind; [apply within_eval_list; exact IHps|]. intros args.
    destruct (callable fn); [apply within_lift|apply within_raise].
  - apply within_bind; [exact IHv|]. intros val s.
    destruct (Ctx.assign n val (ctx s)) as [c|] eqn:E; simpl.
    + exact (R_assign _ _ _ _ E).
    + apply R_refl.
  - apply within_bind; [exact IHo|]. intros v.
    destruct (py_getattr builtin_mro v attr) as [x|[]];
      first [apply within_lift|apply within_raise].
Qed.

End StepsWithin.

Lemma assign_scope_domains n v c c' :
  Ctx.assign n v c = Some c' -> scope_domains c' = scope_domains c.
Proof.
  revert c'. induction c as [|scope parent IH]; simpl; intros c' H; [discriminate|].
  destruct (scope !! n) as [old|] eqn:E.
  - inversion H; subst; clear H. simpl. f_equal.
    apply dom_insert_lookup_L. rewrite E. eauto.
  - destruct (Ctx.assign n v parent) as [parent'|]; [|discriminate].
    inversion H; subst; clear H. simpl. f_equal. apply IH. reflexivity.
Qed.

Lemma get_is_Some_domains name c :
  is_Some (Ctx.get name c) <-> Exists (fun d => name ∈ d) (scope_domains c).
Proof.
  induction c as [|scope parent IH]; simpl.
  - split; [intros [x Hx]; discriminate|intros H; inversion H].
  - rewrite Exists_cons, <- IH, elem_of_dom.
    destruct (scope !! name) as [v|] eqn:E.
    + split; [intros _; left; eauto|intros _; eauto].
    + split; [intros H; right; exact H|].
      intros [[x Hx]|H]; [discriminate|exact H].
Qed.

Lemma eval_scope_domains e s :
  scope_domains (ctx (eval e s).2) = scope_domains (ctx s).
Proof.
  apply (within_eval
           (fun s s' => scope_domains (ctx s') = scope_domains (ctx s))).
  - reflexivity.
  - intros s1 s2 s3 H12 H23. congruence.
  - intros n v s0 c E. simpl. exact (assign_scope_domains _ _ _ _ E).
Qed.

(** X2: evaluating an expression neither declares nor removes a
    variable: every scope of the chain defines the same names afterwards
    as before, so a name is bound after the evaluation exactly when it
    was bound before it. *)
Theorem eval_keeps_scopes e s :
  scope_domains (ctx (eval e s).2) = scope_domains (ctx s)
  /\ forall name,
       is_Some (Ctx.get name (ctx (eval e s).2))
       <-> is_Some (Ctx.get name (ctx s)).
Proof.
  pose proof (eval_scope_domains e s) as H.
  split; [exact H|].
  intros name. rewrite !get_is_Some_domains, H. reflexivity.
Qed.

(** ** Assignment and lookup *)

(** X4: an assignment that succeeds returns the value of its right-hand
    side, and reading the variable afterwards gives that value back and
    changes nothing; every other name reads as it did once the right-hand
    side had been evaluated, and the assignment itself writes nothing to
    the output.  (Lookup and item assignment of the context are the ones
    modelled from the specification.) *)
Theorem Assign_then_read name value s val s' :
  eval (Assign name value) s = (Ok val, s') ->
  eval (Var name) s' = (Ok val, s')
  /\ exists s1, eval value s = (Ok val, s1)
       /\ (forall other, other <> name ->
             Ctx.get other (ctx s') = Ctx.get other (ctx s1))
       /\ stdout s' = stdout s1.
Proof.
  intros H. simpl in H. unfold bind in H.
  destruct (eval value s) as [[v|e] s1] eqn:Ev; [|discriminate].
  destruct (Ctx.assign name v (ctx s1)) as [c|] eqn:Ea; [|discriminate].
  inversion H; subst; clear H.
  split.
  - simpl. rewrite (Ctx_get_assign _ _ _ _ name Ea).
    destruct (decide (name = name)); [reflexivity|contradiction].
  - exists s1. split; [reflexivity|]. split; [|reflexivity].
    intros other Hne. simpl.
    rewrite (Ctx_get_assign _ _ _ _ other Ea).
    destruct (decide (other = name)); [contradiction|reflexivity].
Qed.

(** ** Operands *)

(** X5: when both operands evaluate, the value of an [And] expression
    is one of the two operand values and is truthy exactly when both
    are; the value of an [Or] expression is one of them and is truthy
    exactly when one of them is. *)
Theorem And_Or_truthiness left_ right_ s a s1 b s2 :
  eval left_ s = (Ok a, s1) ->
  eval right_ s1 = (Ok b, s2) ->
  (exists v s', eval (And left_ right_) s = (Ok v, s')
      /\ (v = a \/ v = b)
      /\ is_truthy v = is_truthy a && is_truthy b)
  /\ (exists v s', eval (Or left_ right_) s = (Ok v, s')
      /\ (v = a \/ v = b)
      /\ is_truthy v = is_truthy a || is_truthy b).
Proof.
  intros Hl Hr. split; simpl; step Hl; destruct (is_truthy a) eqn:Ha; simpl.
  - exists b, s2. rewrite Hr. auto.
  - exists a, s1. rewrite Ha. auto.
  - exists a, s1. rewrite Ha. auto.
  - exists b, s2. rewrite Hr. auto.
Qed.

(** X6: a binary operation is strict in both operands: once the left
    operand has a value the right operand is evaluated whatever that
    value is, and the final state is the one the right operand left even
    if the operator then rejects the values; an exception in the left
    operand is the result and the right operand is not evaluated, and an
    exception in the right operand is the result without the operator
    being applied. *)
Theorem BinOp_strict left_ right_ op s :
  (forall e s1, eval left_ s = (Raise e, s1) ->
     eval (BinOp left_ right_ op) s = (Raise e, s1))
  /\ (forall a s1, eval left_ s = (Ok a, s1) ->
        eval (BinOp left_ right_ op) s
        = (rbind (eval right_ s1).1 (op a), (eval right_ s1).2)).
Proof.
  split.
  - intros e s1 Hl. simpl. rewrite (bind_Raise _ _ _ _ _ Hl). reflexivity.
  - intros a s1 Hl. simpl. step Hl. unfold bind.
    destruct (eval right_ s1) as [[b|e] s2]; reflexivity.
Qed.

(** ** Calls *)

Lemma eval_list_app (ev : Expr -> M Value) (pre post : list Expr) s :
  eval_list ev (pre ++ post)%list s
  = match eval_list ev pre s with
    | (Ok vs, s1) =>
        match eval_list ev post s1 with
        | (Ok ws, s2) => (Ok (vs ++ ws)%list, s2)
        | (Raise e, s2) => (Raise e, s2)
        end
    | (Raise e, s1) => (Raise e, s1)
    end.
Proof.
  revert s. induction pre as [|p pre IH]; intros s; simpl.
  - unfold ret. destruct (eval_list ev post s) as [[ws|e] s2]; reflexivity.
  - unfold bind, ret. destruct (ev p s) as [[v|e] s1]; [|reflexivity].
    rewrite IH. destruct (eval_list ev pre s1) as [[vs|e] s2]; [|reflexivity].
    destruct (eval_list ev post s2) as [[ws|e] s3]; reflexivity.
Qed.

(** X7: calling a value that is not callable never returns: the
    arguments are evaluated first, so the state is the one they left, and
    the result is the exception of the first argument that raises or,
    when all have values, [TypeError]. *)
Theorem Call_non_callable callee params s fn s1 :
  eval callee s = (Ok fn, s1) ->
  callable fn = false ->
  eval (Call callee params) s
  = match eval_list eval params s1 with
    | (Ok _, s2) => (Raise TypeError, s2)
    | (Raise e, s2) => (Raise e, s2)
    end
  /\ forall v, (eval (Call callee params) s).1 <> Ok v.
Proof.
  intros He Hc. rewrite (Call_eval _ _ _ _ _ _ _ He), Hc.
  split; [reflexivity|]. intros v.
  destruct (eval_list _ params s1) as [[args|e] s2]; discriminate.
Qed.

(** X8: arguments are evaluated from left to right after the callee,
    each in the state the previous one left.  When one raises, its
    exception is the result of the call in the state it left: the
    arguments after it are not evaluated and the callee is not invoked,
    callable or not. *)
Theorem Call_argument_raises callee (pre : list Expr) arg post s fn s1 vs s2 e s3 :
  eval callee s = (Ok fn, s1) ->
  eval_list eval pre s1 = (Ok vs, s2) ->
  eval arg s2 = (Raise e, s3) ->
  eval (Call callee (pre ++ arg :: post)%list) s = (Raise e, s3).
Proof.
  intros Hc Hpre Harg. rewrite (Call_eval _ _ _ _ _ _ _ Hc).
  rewrite eval_list_app, Hpre. simpl. unfold bind. rewrite Harg. reflexivity.
Qed.

(** ** Unary operators *)

Lemma wrappers_callable ops fn :
  callable fn = true -> callable (foldr VWrapper fn ops) = true.
Proof. intros H. destruct ops; [exact H|reflexivity]. Qed.

Lemma UnaryOp_chain_eval ops e s fn s' :
  eval e s = (Ok fn, s') ->
  callable fn = true ->
  eval (foldr UnaryOp e ops) s = (Ok (foldr VWrapper fn ops), s').
Proof.
  intros He Hc. induction ops as [|op ops IH]; simpl; [exact He|].
  step IH. rewrite (wrappers_callable ops fn Hc). reflexivity.
Qed.

(** X9: unary operators stacked over a callable operand compose: the
    value is a callable, nothing is applied yet, and invoking it invokes
    the operand's value on the arguments and then applies the operators
    to the result from the innermost outwards, an exception of the
    invocation or of an inner operator ending the chain. *)
Theorem UnaryOp_chain ops e s fn s' :
  eval e s = (Ok fn, s') ->
  callable fn = true ->
  eval (foldr UnaryOp e ops) s = (Ok (foldr VWrapper fn ops), s')
  /\ callable (foldr VWrapper fn ops) = true
  /\ forall args,
       invoke (foldr VWrapper fn ops) args
       = foldr (fun op r => rbind r (UnaryOp_apply op)) (invoke fn args) ops.
Proof.
  intros He Hc. split; [exact (UnaryOp_chain_eval ops e s fn s' He Hc)|].
  split; [exact (wrappers_callable ops fn Hc)|].
  intros args. induction ops as [|op ops IH]; simpl; [reflexivity|].
  rewrite IH. reflexivity.
Qed.

Lemma Call_UnaryOp_chain_eval ops callee params s fn s1 :
  eval callee s = (Ok fn, s1) ->
  callable fn = true ->
  eval (Call (foldr UnaryOp callee ops) params) s
  = foldr apply_to_result (eval (Call callee params) s) ops.
Proof.
  intros He Hc. induction ops as [|op ops IH]; cbn [foldr]; [reflexivity|].
  rewrite (Call_UnaryOp_eval host_call builtin_mro op _ params s
             (foldr VWrapper fn ops) s1
             (UnaryOp_chain_eval ops callee s fn s1 He Hc)
             (wrappers_callable ops fn Hc)).
  rewrite IH. reflexivity.
Qed.

(** X10: the transformer's rewriting of a call under a unary operator
    nests: two operators over a call are both moved onto the callee, and
    when the callee evaluates to a callable the rebuilt call gives the
    two operators applied in turn, inner first, to the result of the
    original call, in the state the original call left. *)
Theorem unary_twice_over_call callee params s fn s1 :
  eval callee s = (Ok fn, s1) ->
  callable fn = true ->
  let call := eval (Call callee params) s in
  eval (LoxTransformer.not_ (LoxTransformer.neg (Call callee params))) s
    = apply_to_result op_not (apply_to_result op_neg call)
  /\ eval (LoxTransformer.neg (LoxTransformer.not_ (Call callee params))) s
    = apply_to_result op_neg (apply_to_result op_not call)
  /\ eval (LoxTransformer.not_ (LoxTransformer.not_ (Call callee params))) s
    = apply_to_result op_not (apply_to_result op_not call)
  /\ eval (LoxTransformer.neg (LoxTransformer.neg (Call callee params))) s
    = apply_to_result op_neg (apply_to_result op_neg call).
Proof.
  intros He Hc call. subst call.
  unfold LoxTransformer.not_, LoxTransformer.neg.
  repeat split.
  - exact (Call_UnaryOp_chain_eval [op_not; op_neg] _ params _ _ _ He Hc).
  - exact (Call_UnaryOp_chain_eval [op_neg; op_not] _ params _ _ _ He Hc).
  - exact (Call_UnaryOp_chain_eval [op_not; op_not] _ params _ _ _ He Hc).
  - exact (Call_UnaryOp_chain_eval [op_neg; op_neg] _ params _ _ _ He Hc).
Qed.

Lemma apply_to_result_Ok op r s :
  apply_to_result op (Ok r, s) = (UnaryOp_apply op r, s).
Proof. reflexivity. Qed.

(** X19: when the original call itself returns a callable, the rebuilt
    call applies the operator to that callable at once instead of
    wrapping it: under [Neg] it raises [TypeError], under [Not] it yields
    false, a callable being truthy. *)
Theorem unary_over_call_returning_callable callee params s fn s1 r s2 :
  eval callee s = (Ok fn, s1) ->
  callable fn = true ->
  eval (Call callee params) s = (Ok r, s2) ->
  callable r = true ->
  eval (LoxTransformer.neg (Call callee params)) s = (Raise TypeError, s2)
  /\ eval (LoxTransformer.not_ (Call callee params)) s = (Ok (VBool false), s2)
  /\ eval (UnaryOp op_not (Call callee params)) s = (Ok (VWrapper op_not r), s2).
Proof.
  intros He Hc Hcall Hr. unfold LoxTransformer.neg, LoxTransformer.not_.
  rewrite !(Call_UnaryOp_eval host_call builtin_mro _ _ params _ _ _ He Hc).
  rewrite Hcall, !apply_to_result_Ok.
  split; [|split].
  - destruct r; try discriminate Hr; reflexivity.
  - rewrite UnaryOp_apply_not. destruct r; try discriminate Hr; reflexivity.
  - change (bind (eval (Call callee params))
              (fun val => if callable val then ret (VWrapper op_not val)
                          else lift (UnaryOp_apply op_not val)) s
            = (Ok (VWrapper op_not r), s2)).
    rewrite (bind_Ok _ _ _ _ _ Hcall), Hr. reflexivity.
Qed.

(** X11: on an operand whose value is not callable [Not] never raises
    and yields a Boolean, the negated truthiness; applied twice it yields
    the truthiness of the operand as a Boolean. *)
Theorem Not_on_values e s v s' :
  eval e s = (Ok v, s') ->
  callable v = false ->
  eval (UnaryOp op_not e) s = (Ok (VBool (negb (is_truthy v))), s')
  /\ eval (UnaryOp op_not (UnaryOp op_not e)) s = (Ok (VBool (is_truthy v)), s').
Proof.
  intros He Hc.
  assert (H1 : eval (UnaryOp op_not e) s = (Ok (VBool (negb (is_truthy v))), s')).
  { rewrite (UnaryOp_eval_not_callable _ _ _ _ _ _ _ He Hc).
    rewrite UnaryOp_apply_not. reflexivity. }
  split; [exact H1|].
  rewrite (UnaryOp_eval_not_callable _ _ _ _ _ _ _ H1 eq_refl).
  rewrite UnaryOp_apply_not. destruct (is_truthy v); reflexivity.
Qed.

Lemma opp_involutive (x : float) : (- - x)%float = x.
Proof.
  apply Prim2SF_inj. rewrite !opp_spec.
  destruct (Prim2SF x) as [sg|sg| |sg m e]; simpl; rewrite ?negb_involutive; reflexivity.
Qed.

(** X12: negating a Number twice gives the Number back, signed zeros
    and infinities included. *)
Theorem Neg_Neg_number e s x s' :
  eval e s = (Ok (VFloat x), s') ->
  eval (UnaryOp op_neg (UnaryOp op_neg e)) s = (Ok (VFloat x), s').
Proof.
  intros He.
  assert (H1 : eval (UnaryOp op_neg e) s = (Ok (VFloat (- x)%float), s')).
  { rewrite (UnaryOp_eval_not_callable _ _ _ _ _ _ _ He eq_refl). reflexivity. }
  rewrite (UnaryOp_eval_not_callable _ _ _ _ _ _ _ H1 eq_refl).
  simpl. rewrite opp_involutive. reflexivity.
Qed.

(** X13: under [Neg] or [Not] a unary node yields a callable exactly
    when its operand does: applied to a value that is not callable, the
    two operators return a number or a Boolean, never a callable. *)
Theorem UnaryOp_callable_iff op e s v s1 r s2 :
  op = op_neg \/ op = op_not ->
  eval e s = (Ok v, s1) ->
  eval (UnaryOp op e) s = (Ok r, s2) ->
  callable r = callable v /\ s2 = s1.
Proof.
  intros Hop He Hu. simpl in Hu. rewrite (bind_Ok _ _ _ _ _ He) in Hu.
  destruct (callable v) eqn:Hc.
  - inversion Hu; subst. split; reflexivity.
  - unfold lift in Hu. inversion Hu; subst s2. split; [|reflexivity].
    destruct Hop as [-> | ->].
    + destruct v; simpl in *; try discriminate;
        inversion H0; reflexivity.
    + rewrite UnaryOp_apply_not in H0. inversion H0. reflexivity.
Qed.

(** ** Statements and programs *)

Lemma run_app (p q : Program) s :
  run (p ++ q)%list s
  = match run p s with
    | (Ok _, s') => run q s'
    | (Raise e, s') => (Raise e, s')
    end.
Proof.
  revert s. induction p as [|st p IH]; intros s; simpl; [reflexivity|].
  unfold bind. destruct (exec st s) as [[[]|e] s1]; [apply IH|reflexivity].
Qed.

(** X15: a program runs its statements in order and stops at the first
    one that raises: running two programs one after the other is running
    the first and then, only if it did not raise, the second in the state
    the first left; after a statement that raises, the rest of the
    program has no effect. *)
Theorem Program_eval_sequence (p q : Program) s :
  run (LoxTransformer.program (p ++ q)%list) s
  = match run (LoxTransformer.program p) s with
    | (Ok _, s') => run (LoxTransformer.program q) s'
    | (Raise e, s') => (Raise e, s')
    end
  /\ forall st e s1,
       run p s = (Ok tt, s1) ->
       (exec st s1).1 = Raise e ->
       run (p ++ st :: q)%list s = (Raise e, (exec st s1).2).
Proof.
  split; [apply run_app|].
  intros st e s1 Hp Hst. rewrite run_app, Hp. simpl. unfold bind.
  destruct (exec st s1) as [[[]|e'] s2]; simpl in *; [discriminate|].
  inversion Hst. reflexivity.
Qed.

(** ** Tokens *)

Lemma substring_whole_prefix s t :
  String.substring 0 (String.length s) (s +:+ t) = s.
Proof.
  induction s as [|c s IH]; simpl; [destruct t; reflexivity|].
  rewrite IH. reflexivity.
Qed.

Lemma length_snoc s c :
  String.length (s +:+ String c EmptyString) = S (String.length s).
Proof. induction s as [|d s IH]; simpl; [reflexivity|]. rewrite IH. reflexivity. Qed.

(** X17: a string token loses its first and its last character, the
    quotes, and nothing else: the literal holds exactly the text between
    them.  A token of fewer than two characters gives the empty string. *)
Theorem STRING_unquotes :
  (forall q s q',
     LoxTransformer.STRING (String q (s +:+ String q' EmptyString))
     = Literal (VStr s))
  /\ LoxTransformer.STRING EmptyString = Literal (VStr EmptyString)
  /\ forall c, LoxTransformer.STRING (String c EmptyString)
               = Literal (VStr EmptyString).
Proof.
  split; [|split; [reflexivity|intros c; reflexivity]].
  intros q s q'. unfold LoxTransformer.STRING. do 2 f_equal.
  simpl String.length. rewrite length_snoc. simpl.
  rewrite Nat.sub_0_r. apply substring_whole_prefix.
Qed.

(** ** The patched source text *)

Lemma replace_absent old new s :
  occurs old s = false -> py_replace old new s = s.
Proof.
  unfold py_replace. induction s as [|c s IH]; [reflexivity|].
  cbn [occurs replace_from]. intros H. apply orb_false_iff in H as [Hp Ho].
  rewrite Hp, (IH Ho). reflexivity.
Qed.

Lemma prefix_empty s : String.prefix EmptyString s = true.
Proof. destruct s; reflexivity. Qed.

Lemma occurs_char_cons c d s :
  occurs (String c EmptyString) (String d s)
  = (if Ascii.ascii_dec c d then true else false)
    || occurs (String c EmptyString) s.
Proof.
  cbn [occurs String.prefix].
  destruct (Ascii.ascii_dec c d); [rewrite prefix_empty|]; reflexivity.
Qed.

Lemma occurs_char_append c s t :
  occurs (String c EmptyString) (s +:+ t)
  = occurs (String c EmptyString) s || occurs (String c EmptyString) t.
Proof.
  induction s as [|d s IH].
  - simpl. destruct t; reflexivity.
  - change (String d s +:+ t) with (String d (s +:+ t)).
    rewrite !occurs_char_cons, IH, orb_assoc. reflexivity.
Qed.

(** Replacing does not bring in a character that neither the text nor
    the replacement has. *)
Lemma replace_from_no_char c old new k s :
  occurs (String c EmptyString) new = false ->
  occurs (String c EmptyString) s = false ->
  occurs (String c EmptyString) (replace_from old new k s) = false.
Proof.
  intros Hnew. revert k. induction s as [|d s IH]; intros k Hs; [exact Hs|].
  rewrite occurs_char_cons in Hs. apply orb_false_iff in Hs as [Hd Hs].
  cbn [replace_from]. destruct k as [|k]; [|apply IH, Hs].
  destruct (String.prefix old (String d s)).
  - rewrite occurs_char_append, Hnew. apply IH, Hs.
  - rewrite occurs_char_cons, Hd. apply IH, Hs.
Qed.

(** Replacing a one-character pattern leaves no occurrence of it. *)
Lemma replace_char_gone c new s :
  occurs (String c EmptyString) new = false ->
  occurs (String c EmptyString) (py_replace (String c EmptyString) new s) = false.
Proof.
  intros Hnew. unfold py_replace. induction s as [|d s IH]; [reflexivity|].
  cbn [replace_from String.prefix String.length Nat.pred].
  destruct (Ascii.ascii_dec c d) as [E|E].
  - rewrite prefix_empty, occurs_char_append, Hnew. exact IH.
  - rewrite occurs_char_cons.
    destruct (Ascii.ascii_dec c d); [contradiction|]. exact IH.
Qed.

(** X18: the text [_lox_eval] retries with never contains [!], whatever
    the source was; and a source in which none of [!], [true] and
    [false] occurs is retried unchanged. *)
Theorem patched_source :
  (forall src, occurs "!" (patched src) = false)
  /\ (forall src,
        occurs "!" src = false ->
        occurs "true" src = false ->
        occurs "false" src = false ->
        patched src = src).
Proof.
  split.
  - intros src. unfold patched, py_replace at 1 2.
    apply replace_from_no_char; [reflexivity|].
    apply replace_from_no_char; [reflexivity|].
    apply replace_char_gone. reflexivity.
  - intros src H1 H2 H3. unfold patched.
    rewrite (replace_absent "!" _ _ H1).
    rewrite (replace_absent "true" _ _ H2). exact (replace_absent "false" _ _ H3).
Qed.

End MoreProperties.

(** * The properties on the concrete host *)

Import LoxTransformer.


(** [always] answers true; [-always] called on nothing gives [-1], and
    so does [-always()]. *)
Lemma UnaryOp_wrapper_neg_boolean_accepted_demo :
  eval demo_call demo_mro (UnaryOp op_neg (VAR "always")) demo_state
    = (Ok (VWrapper op_neg (VNative "always")), demo_state)
  /\ invoke demo_call (VWrapper op_neg (VNative "always")) [] = Ok (VInt (-1))
  /\ eval demo_call demo_mro (neg (call (VAR "always") [])) demo_state
    = (Ok (VInt (-1)), demo_state).
Proof.
  destruct (UnaryOp_wrapper_neg_boolean_accepted demo_call demo_mro
              (VAR "always") [] demo_state (VNative "always") demo_state
              [] demo_state true)
    as (H1 & H2 & H3); try (vm_compute; reflexivity).
  split; [exact H1|]. split; [exact H2|exact H3].
Defined.

(** [false and (x = 2)] is [false] and leaves [x] at 1;
    [true or (x = 2)] likewise. *)
Lemma And_Or_short_circuit_demo :
  eval demo_call demo_mro (and_ (BOOL "false") (assign "x" (NUMBER 2))) demo_state
    = (Ok (VBool false), demo_state)
  /\ eval demo_call demo_mro (or_ (BOOL "true") (assign "x" (NUMBER 2))) demo_state
    = (Ok (VBool true), demo_state).
Proof.
  split.
  - apply (And_Or_short_circuit demo_call demo_mro
             (BOOL "false") (assign "x" (NUMBER 2)) demo_state
             (VBool false) demo_state); reflexivity.
  - apply (And_Or_short_circuit demo_call demo_mro
             (BOOL "true") (assign "x" (NUMBER 2)) demo_state
             (VBool true) demo_state); reflexivity.
Defined.

(** [1 == true] is false and [1 != true] is true; [1 == 1] is true. *)
Lemma Eq_Ne_by_variant_demo :
  eval demo_call demo_mro (eq (NUMBER 1) (BOOL "true")) demo_state
    = (Ok (VBool false), demo_state)
  /\ eval demo_call demo_mro (ne (NUMBER 1) (BOOL "true")) demo_state
    = (Ok (VBool true), demo_state)
  /\ eval demo_call demo_mro (eq (NUMBER 1) (NUMBER 1)) demo_state
    = (Ok (VBool true), demo_state).
Proof.
  destruct (Eq_Ne_by_variant demo_call demo_mro (NUMBER 1) (BOOL "true")
              demo_state (VFloat 1) demo_state (VBool true) demo_state
              eq_refl eq_refl) as [Hd _].
  destruct Hd as [H1 H2]; [discriminate|].
  split; [exact H1|]. split; [exact H2|]. vm_compute. reflexivity.
Defined.

(** [1 + "a"] fails with a type error, and so do the other three. *)
Lemma arithmetic_rejects_non_numbers_demo :
  eval demo_call demo_mro (add (NUMBER 1) (Literal (VStr "a"))) demo_state
    = (Raise TypeError, demo_state)
  /\ eval demo_call demo_mro (div (NUMBER 1) (Literal (VStr "a"))) demo_state
    = (Raise TypeError, demo_state).
Proof.
  destruct (arithmetic_rejects_non_numbers demo_call demo_mro
              (NUMBER 1) (Literal (VStr "a"))
              demo_state (VFloat 1) demo_state (VStr "a") demo_state
              eq_refl eq_refl (or_intror eq_refl)) as (Ha & _ & _ & Hd & _).
  split; [exact Ha|exact Hd].
Defined.

(** [z = 2] with [z] never declared fails and declares nothing. *)
Lemma Assign_unbound_fails_demo :
  eval demo_call demo_mro (assign "z" (NUMBER 2)) demo_state
    = (Raise (KeyError "z"), demo_state)
  /\ Ctx.get "z" (ctx (eval demo_call demo_mro (assign "z" (NUMBER 2)) demo_state).2)
    = None.
Proof.
  destruct (Assign_unbound_fails demo_call demo_mro "z" (NUMBER 2) demo_state)
    as (_ & Hk & He); [vm_compute; reflexivity|].
  split; [|exact Hk].
  exact (proj1 (He (VFloat 2) demo_state eq_refl)).
Defined.

(** An object of class [B < A] has no attribute [missing]. *)
Lemma Getattr_missing_demo :
  eval demo_call demo_mro (getattr (Literal demo_object) "missing") demo_state
    = (Raise (AttributeError "missing"), demo_state).
Proof.
  exact (proj1 (Getattr_missing demo_call demo_mro (Literal demo_object) "missing"
                  demo_state demo_object demo_state eq_refl eq_refl eq_refl)).
Defined.

(** [-sqrt(9)] is built as [(-sqrt)(9)] and gives -3. *)
Lemma unary_over_call_rewrite_demo :
  neg (call (VAR "sqrt") [NUMBER 9])
    = Call (UnaryOp op_neg (VAR "sqrt")) [NUMBER 9]
  /\ eval demo_call demo_mro (call (VAR "sqrt") [NUMBER 9]) demo_state
    = (Ok (VFloat 3), demo_state)
  /\ eval demo_call demo_mro (neg (call (VAR "sqrt") [NUMBER 9])) demo_state
    = (Ok (VFloat (-3)), demo_state).
Proof.
  destruct (unary_over_call_rewrite demo_call demo_mro (VAR "sqrt") [NUMBER 9]
              demo_state (VNative "sqrt") demo_state)
    as (_ & H1 & _ & H2); [vm_compute; reflexivity|reflexivity|].
  split; [exact H1|]. split; [vm_compute; reflexivity|].
  unfold call. rewrite H2. vm_compute. reflexivity.
Defined.

(** [print 1;] writes [1.0]. *)
Lemma Print_writes_host_text_demo :
  exec demo_call demo_mro (print_cmd (NUMBER 1)) demo_state
    = (Ok tt, write (VFloat 1) demo_state)
  /\ py_str (VFloat 1) = Some "1.0".
Proof.
  destruct (Print_writes_host_text demo_call demo_mro (NUMBER 1) demo_state
              (VFloat 1) demo_state eq_refl) as (H1 & _ & _ & _ & H5).
  split; [exact H1|].
  exact (H5 1%float false 1 ltac:(vm_compute; reflexivity)).
Defined.

(** C8 as stated fails: [print true; print false; print nil; print 1;]
    writes [True], [False], [None] and [1.0], none of which is the text
    the conventions name. *)
Lemma Print_lox_text_counterexample :
  map py_str
    (stdout (run demo_call demo_mro
               [print_cmd (BOOL "true"); print_cmd (BOOL "false");
                print_cmd NIL; print_cmd (NUMBER 1)] demo_state).2)
    = [Some "True"; Some "False"; Some "None"; Some "1.0"]
  /\ "True" <> "true" /\ "False" <> "false"
  /\ "None" <> "nil" /\ "1.0" <> "1".
Proof.
  split; [vm_compute; reflexivity|].
  repeat split; discriminate.
Qed.

(** * The further properties on the concrete host *)

(** After [x = 2], [x] reads 2. *)
Lemma Assign_then_read_demo :
  eval demo_call demo_mro (VAR "x")
    (eval demo_call demo_mro (assign "x" (NUMBER 2)) demo_state).2
  = (Ok (VFloat 2), (eval demo_call demo_mro (assign "x" (NUMBER 2)) demo_state).2).
Proof.
  exact (proj1 (Assign_then_read demo_call demo_mro "x" (NUMBER 2) demo_state
                  (VFloat 2) _ eq_refl)).
Defined.

(** [nil and 1] is falsy and [nil or 1] is truthy. *)
Lemma And_Or_truthiness_demo :
  (exists v s',
      eval demo_call demo_mro (And NIL (NUMBER 1)) demo_state = (Ok v, s')
      /\ (v = VNone \/ v = VFloat 1)
      /\ is_truthy v = is_truthy VNone && is_truthy (VFloat 1))
  /\ (exists v s',
      eval demo_call demo_mro (Or NIL (NUMBER 1)) demo_state = (Ok v, s')
      /\ (v = VNone \/ v = VFloat 1)
      /\ is_truthy v = is_truthy VNone || is_truthy (VFloat 1)).
Proof.
  exact (And_Or_truthiness demo_call demo_mro NIL (NUMBER 1) demo_state
           VNone demo_state (VFloat 1) demo_state eq_refl eq_refl).
Defined.

(** [x(x = 2)] with [x] a number raises [TypeError] after [x] was set. *)
Lemma Call_non_callable_demo :
  (eval demo_call demo_mro (call (VAR "x") [assign "x" (NUMBER 2)]) demo_state).1
    = Raise TypeError
  /\ Ctx.get "x"
       (ctx (eval demo_call demo_mro
               (call (VAR "x") [assign "x" (NUMBER 2)]) demo_state).2)
     = Some (VFloat 2).
Proof.
  destruct (Call_non_callable demo_call demo_mro (VAR "x") [assign "x" (NUMBER 2)]
              demo_state (VFloat 1) demo_state) as [H _];
    [vm_compute; reflexivity|reflexivity|].
  unfold call. rewrite H. split; vm_compute; reflexivity.
Defined.

(** In [sqrt(1, y, x = 2)] the missing [y] ends the call: [x] stays 1. *)
Lemma Call_argument_raises_demo :
  eval demo_call demo_mro
    (call (VAR "sqrt") [NUMBER 1; VAR "y"; assign "x" (NUMBER 2)]) demo_state
  = (Raise (NameError "y"), demo_state).
Proof.
  apply (Call_argument_raises demo_call demo_mro (VAR "sqrt") [NUMBER 1] (VAR "y")
           [assign "x" (NUMBER 2)] demo_state (VNative "sqrt") demo_state
           [VFloat 1] demo_state (NameError "y") demo_state);
    vm_compute; reflexivity.
Defined.

(** [! - sqrt] called on 9 is [!(-3)], false. *)
Lemma UnaryOp_chain_demo :
  invoke demo_call (VWrapper op_not (VWrapper op_neg (VNative "sqrt"))) [VFloat 9]
  = Ok (VBool false).
Proof.
  destruct (UnaryOp_chain demo_call demo_mro [op_not; op_neg] (VAR "sqrt")
              demo_state (VNative "sqrt") demo_state)
    as (_ & _ & H); [vm_compute; reflexivity|reflexivity|].
  etransitivity; [exact (H [VFloat 9])|]. vm_compute. reflexivity.
Defined.

(** [!-sqrt(9)] is false and [--sqrt(9)] is 3. *)
Lemma unary_twice_over_call_demo :
  eval demo_call demo_mro (not_ (neg (call (VAR "sqrt") [NUMBER 9]))) demo_state
    = (Ok (VBool false), demo_state)
  /\ eval demo_call demo_mro (neg (neg (call (VAR "sqrt") [NUMBER 9]))) demo_state
    = (Ok (VFloat 3), demo_state).
Proof.
  destruct (unary_twice_over_call demo_call demo_mro (VAR "sqrt") [NUMBER 9]
              demo_state (VNative "sqrt") demo_state)
    as (H1 & _ & _ & H4); [vm_compute; reflexivity|reflexivity|].
  unfold call. rewrite H1, H4. split; vm_compute; reflexivity.
Defined.

(** [!0] is false and [!!0] is true. *)
Lemma Not_on_values_demo :
  eval demo_call demo_mro (UnaryOp op_not (NUMBER 0)) demo_state
    = (Ok (VBool false), demo_state)
  /\ eval demo_call demo_mro (UnaryOp op_not (UnaryOp op_not (NUMBER 0))) demo_state
    = (Ok (VBool true), demo_state).
Proof.
  exact (Not_on_values demo_call demo_mro (NUMBER 0) demo_state
           (VFloat 0) demo_state eq_refl eq_refl).
Defined.

(** [--x] is [x]. *)
Lemma Neg_Neg_number_demo :
  eval demo_call demo_mro (UnaryOp op_neg (UnaryOp op_neg (VAR "x"))) demo_state
  = (Ok (VFloat 1), demo_state).
Proof.
  apply (Neg_Neg_number demo_call demo_mro (VAR "x") demo_state 1%float demo_state).
  vm_compute. reflexivity.
Defined.

(** [-x] is not callable, as [x] is not. *)
Lemma UnaryOp_callable_iff_demo :
  callable (VFloat (-1)) = callable (VFloat 1) /\ demo_state = demo_state.
Proof.
  apply (UnaryOp_callable_iff demo_call demo_mro op_neg (VAR "x") demo_state
           (VFloat 1) demo_state (VFloat (-1)) demo_state);
    [left; reflexivity|vm_compute; reflexivity|vm_compute; reflexivity].
Defined.

(** [-make()] raises and [!make()] is false, [make()] being a function. *)
Lemma unary_over_call_returning_callable_demo :
  eval factory_call demo_mro (neg (call (VAR "make") [])) factory_state
    = (Raise TypeError, factory_state)
  /\ eval factory_call demo_mro (not_ (call (VAR "make") [])) factory_state
    = (Ok (VBool false), factory_state).
Proof.
  destruct (unary_over_call_returning_callable factory_call demo_mro
              (VAR "make") [] factory_state (VNative "make") factory_state
              (VNative "made") factory_state)
    as (H1 & H2 & _); try (vm_compute; reflexivity).
  split; [exact H1|exact H2].
Defined.
